(** * TACSObject.h: scalar type, reference counting and optimisation
      interfaces of TACS

    A shallow embedding of [src/TACSObject.h].  The header defines the
    scalar helpers ([RealPart], [ImagPart], [fabs]) and the default
    bodies of the virtual methods of [TACSOptObject] and
    [TACSSparseConObject] inline; those are translated line by line.
    The bodies of [TACSObject::incref], [TACSObject::decref],
    [TACSThreadInfo::setNumThreads], [TacsInitialize] and their
    neighbours live in a translation unit that is not part of the
    sources at hand; they are modelled from the specification and every
    such definition says so. *)

From Stdlib Require Import ZArith List Lia Bool SpecFloat.
From stdpp Require Import gmap.

Local Open Scope Z_scope.

(** ** Scalars *)

Module Scalar.

(** A C++ [double].  [spec_float] is the IEEE 754 data model of the
    standard library: signed zeros, signed infinities, NaN and finite
    numbers [(-1)^s * m * 2^e]. *)
Definition double : Type := spec_float.

(** The literal [0.0]. *)
Definition zero : double := S754_zero false.

(** [typedef std::complex<double> TacsComplex;] *)
Record TacsComplex : Type := mkComplex { real : double; imag : double }.

(** The two build configurations: [TACS_USE_COMPLEX] defined or not. *)
Inductive BuildConfig : Type := RealBuild | ComplexBuild.

(** [typedef TacsComplex TacsScalar;] under [TACS_USE_COMPLEX],
    [typedef double TacsScalar;] otherwise. *)
Definition TacsScalar (cfg : BuildConfig) : Type :=
  match cfg with
  | RealBuild => double
  | ComplexBuild => TacsComplex
  end.

(** The converting constructor [complex(double re = 0.0, double im = 0.0)]
    that C++ applies when a [double] is passed where a
    [const TacsComplex&] is expected. *)
Definition complex_of_double (r : double) : TacsComplex := mkComplex r zero.

(** Unary minus of [std::complex]: both components are negated. *)
Definition complex_opp (c : TacsComplex) : TacsComplex :=
  mkComplex (SFopp (real c)) (SFopp (imag c)).

(** [inline double RealPart( const TacsComplex& c ){ return real(c); }] *)
Definition RealPart_complex (c : TacsComplex) : double := real c.

(** [inline double ImagPart( const TacsComplex& c ){ return imag(c); }] *)
Definition ImagPart (c : TacsComplex) : double := imag c.

(** [inline double RealPart( const double& r ){ return r; }] *)
Definition RealPart_double (r : double) : double := r.

(** [inline TacsComplex fabs( const TacsComplex& c )]:
    [if (real(c) < 0.0){ return -c; } return c;] *)
Definition fabs (c : TacsComplex) : TacsComplex :=
  if SFltb (real c) zero then complex_opp c else c.

(** Overload resolution of [RealPart(x)] for [x] of type [TacsScalar]:
    the exact match of the configuration is called. *)
Definition RealPart (cfg : BuildConfig) : TacsScalar cfg -> double :=
  match cfg with
  | RealBuild => RealPart_double
  | ComplexBuild => RealPart_complex
  end.

(** Overload resolution of [ImagPart(x)] for [x] of type [TacsScalar]:
    there is one candidate only, taking a [const TacsComplex&]; a
    [double] argument reaches it through [complex_of_double]. *)
Definition ImagPart_scalar (cfg : BuildConfig) : TacsScalar cfg -> double :=
  match cfg with
  | RealBuild => fun r => ImagPart (complex_of_double r)
  | ComplexBuild => ImagPart
  end.

End Scalar.

(** ** Reference counting *)

Module RefCount.

(** The range of a C++ [int], and the reduction of an integer into it.
    Arithmetic on [ref_count] is written with the wrap-around of the
    32-bit two's complement representation. *)
Definition INT_MIN : Z := - 2 ^ 31.
Definition INT_MAX : Z := 2 ^ 31 - 1.
Definition wrap_int (z : Z) : Z := (z + 2 ^ 31) mod 2 ^ 32 - 2 ^ 31.

(** [class TACSObject]: the one data member is [int ref_count]. *)
Record TACSObject : Type := mkObject { ref_count : Z }.

(** What remains at the address of an object once a call on it has
    returned: the object, or nothing after [delete]. *)
Inductive Storage : Type :=
| Live (o : TACSObject)
| Destroyed.

(** Modelled from the spec: the body of the constructor
    [TACSObject::TACSObject()], absent from the header.  The count is
    initialised to zero at construction. *)
Definition TACSObject_new : TACSObject := mkObject 0.

(** Modelled from the spec: the body of [TACSObject::incref()], absent
    from the header.  It increments the count by 1 and always
    succeeds. *)
Definition incref (o : TACSObject) : TACSObject :=
  mkObject (wrap_int (ref_count o + 1)).

(** Modelled from the spec: the body of [TACSObject::decref()], absent
    from the header.  It decrements the count by 1; if the result is
    exactly 0 the instance is destroyed. *)
Definition decref (o : TACSObject) : Storage :=
  let o' := mkObject (wrap_int (ref_count o - 1)) in
  if ref_count o' =? 0 then Destroyed else Live o'.

(** Modelled from the spec: the body of [TACSObject::refcount()],
    absent from the header.  It returns the current count and has no
    side effect. *)
Definition refcount (o : TACSObject) : Z := ref_count o.

(** *** Sequences of calls on one object *)

Inductive Call : Type := Incref | Decref.

(** The storage of the object together with the number of times its
    destructor has run. *)
Record Exec : Type := mkExec { slot : Storage; destructions : nat }.

(** A freshly constructed object: alive, count 0, no destructor run. *)
Definition fresh : Exec := mkExec (Live TACSObject_new) 0.

(** One call.  A call through a pointer to a destroyed object has no
    defined behaviour: [None]. *)
Definition step (c : Call) (e : Exec) : option Exec :=
  match slot e with
  | Destroyed => None
  | Live o =>
      match c with
      | Incref => Some (mkExec (Live (incref o)) (destructions e))
      | Decref =>
          match decref o with
          | Live o' => Some (mkExec (Live o') (destructions e))
          | Destroyed => Some (mkExec Destroyed (S (destructions e)))
          end
      end
  end.

Fixpoint run (cs : list Call) (e : Exec) : option Exec :=
  match cs with
  | [] => Some e
  | c :: cs' =>
      match step c e with
      | Some e' => run cs' e'
      | None => None
      end
  end.

(** [N] calls of [incref] followed by [N] calls of [decref]. *)
Definition increfs_then_decrefs (N : nat) : list Call :=
  repeat Incref N ++ repeat Decref N.

(** [incref(); decref();] on [o] changes nothing: the object is still
    there, [refcount()] is what it was, and no destructor has run. *)
Definition pair_is_neutral (o : TACSObject) (d : nat) : Prop :=
  exists o',
    run [Incref; Decref] (mkExec (Live o) d) = Some (mkExec (Live o') d) /\
    refcount o' = refcount o.

(** The count that [k] calls out of [N] increments followed by [N]
    decrements leave behind. *)
Definition count_after (N k : nat) : Z :=
  if (k <=? N)%nat then Z.of_nat k else Z.of_nat (2 * N - k).

End RefCount.

(** ** Process-wide initialisation *)

Module Init.

(** [extern MPI_Op TACS_MPI_MIN; extern MPI_Op TACS_MPI_MAX;] *)
Inductive ReductionOp : Type := TACS_MPI_MIN | TACS_MPI_MAX.

(** What the messaging substrate is asked to do. *)
Inductive SubstrateCall : Type :=
| Op_create (op : ReductionOp).

(** The process-wide state: the flag that [int TacsIsInitialized()]
    reports, and the requests sent to the substrate so far, oldest
    first. *)
Record Process : Type :=
  mkProcess { initialized : Z; substrate_calls : list SubstrateCall }.

(** Modelled from the spec: the process-wide state before any call of
    [TacsInitialize()], whose definition is not in the header.  The flag
    is false and nothing has been registered with the substrate. *)
Definition process_start : Process := mkProcess 0 [].

(** A C++ [int] read as a condition. *)
Definition truthy (i : Z) : bool := negb (i =? 0).

(** Modelled from the spec: the body of [TacsInitialize()], declared in
    the header and defined elsewhere.  It sets the process-wide flag
    under a guard that tolerates repeated calls, and registers the two
    reduction operators (elementwise minimum and maximum) with the
    substrate the first time only. *)
Definition TacsInitialize (p : Process) : Process :=
  if truthy (initialized p) then p
  else mkProcess 1 (substrate_calls p ++
                    [Op_create TACS_MPI_MIN; Op_create TACS_MPI_MAX]).

(** Modelled from the spec: the body of [TacsIsInitialized()], declared
    in the header and defined elsewhere.  It reports the flag. *)
Definition TacsIsInitialized (p : Process) : Z := initialized p.

End Init.

(** ** Design variables and sparse constraints *)

Module Opt.
Import Scalar.

(** Where the virtual methods run: the object they are called on, and
    the caller's memory, in which an array argument ([TacsScalar dvs[]],
    [int rowp[]]) is the address of its first cell. *)
Record World (cfg : BuildConfig) : Type := mkWorld {
  self : RefCount.TACSObject;
  scalar_cells : gmap Z (TacsScalar cfg);
  int_cells : gmap Z Z
}.
Arguments mkWorld {cfg} _ _ _.
Arguments self {cfg} _.
Arguments scalar_cells {cfg} _.
Arguments int_cells {cfg} _.

(** How a call ends: it returns a value or it throws. *)
Inductive Outcome (A : Type) : Type :=
| Returned (a : A)
| Thrown.
Arguments Returned {A} _.
Arguments Thrown {A}.

(** A method body: from the world before the call to the outcome and
    the world after it. *)
Definition Method (cfg : BuildConfig) (A : Type) : Type :=
  World cfg -> Outcome A * World cfg.

Section Bodies.
Context {cfg : BuildConfig}.

(** [return a;] and, at [unit], the empty body. *)
Definition ret {A : Type} (a : A) : Method cfg A := fun w => (Returned a, w).

Definition bind {A B : Type} (m : Method cfg A) (k : A -> Method cfg B)
  : Method cfg B :=
  fun w =>
    match m w with
    | (Returned a, w') => k a w'
    | (Thrown, w') => (Thrown, w')
    end.

(** [a[i] = v;] for an array of scalars and for an array of [int]. *)
Definition store_scalar (a i : Z) (v : TacsScalar cfg) : Method cfg unit :=
  fun w => (Returned tt,
            mkWorld (self w) (<[a + i := v]> (scalar_cells w)) (int_cells w)).

Definition store_int (a i : Z) (v : Z) : Method cfg unit :=
  fun w => (Returned tt,
            mkWorld (self w) (scalar_cells w) (<[a + i := v]> (int_cells w))).

(** *** [class TACSOptObject] *)

(** [virtual void setDesignVars( const TacsScalar dvs[], int numDVs ){}] *)
Definition TACSOptObject_setDesignVars (dvs numDVs : Z) : Method cfg unit :=
  ret tt.

(** [virtual void getDesignVars( TacsScalar dvs[], int numDVs ){}] *)
Definition TACSOptObject_getDesignVars (dvs numDVs : Z) : Method cfg unit :=
  ret tt.

(** [virtual void getDesignVarRange( TacsScalar lowerBound[],
    TacsScalar upperBound[], int numDVs ){}] *)
Definition TACSOptObject_getDesignVarRange
  (lowerBound upperBound numDVs : Z) : Method cfg unit :=
  ret tt.

(** *** [class TACSSparseConObject] *)

(** [virtual int isLinear(){ return 0; }] *)
Definition TACSSparseConObject_isLinear : Method cfg Z := ret 0.

(** [virtual int getNumCon(){ return 0; }] *)
Definition TACSSparseConObject_getNumCon : Method cfg Z := ret 0.

(** [virtual int getConCSRSize(){ return 0; }] *)
Definition TACSSparseConObject_getConCSRSize : Method cfg Z := ret 0.

(** [virtual int getConRange( int offset, TacsScalar lb[],
    TacsScalar ub[] ){ return 0; }] *)
Definition TACSSparseConObject_getConRange (offset lb ub : Z)
  : Method cfg Z := ret 0.

(** [virtual int addConCSR( int offset, int rowp[], int cols[] )
    { return 0; }] *)
Definition TACSSparseConObject_addConCSR (offset rowp cols : Z)
  : Method cfg Z := ret 0.

(** [virtual int evalCon( int offset, TacsScalar con[] ){ return 0; }] *)
Definition TACSSparseConObject_evalCon (offset con : Z)
  : Method cfg Z := ret 0.

(** [virtual int evalConDVSens( int offset, TacsScalar Acol[],
    const int rowp[], const int cols[] ){ return 0; }] *)
Definition TACSSparseConObject_evalConDVSens (offset Acol rowp cols : Z)
  : Method cfg Z := ret 0.

End Bodies.

(** *** Virtual dispatch *)

(** The virtual methods of a [TACSOptObject]: one slot per method, filled
    by the most derived class that defines it. *)
Record OptMethods (cfg : BuildConfig) : Type := mkOptMethods {
  setDesignVars : Z -> Z -> Method cfg unit;
  getDesignVars : Z -> Z -> Method cfg unit;
  getDesignVarRange : Z -> Z -> Z -> Method cfg unit
}.
Arguments mkOptMethods {cfg} _ _ _.
Arguments setDesignVars {cfg} _ _ _.
Arguments getDesignVars {cfg} _ _ _.
Arguments getDesignVarRange {cfg} _ _ _ _.

(** The virtual methods of a [TACSSparseConObject], which extends
    [TACSOptObject]. *)
Record SparseConMethods (cfg : BuildConfig) : Type := mkSparseConMethods {
  opt_methods : OptMethods cfg;
  isLinear : Method cfg Z;
  getNumCon : Method cfg Z;
  getConCSRSize : Method cfg Z;
  getConRange : Z -> Z -> Z -> Method cfg Z;
  addConCSR : Z -> Z -> Z -> Method cfg Z;
  evalCon : Z -> Z -> Method cfg Z;
  evalConDVSens : Z -> Z -> Z -> Z -> Method cfg Z
}.
Arguments mkSparseConMethods {cfg} _ _ _ _ _ _ _ _.
Arguments opt_methods {cfg} _.
Arguments isLinear {cfg} _.
Arguments getNumCon {cfg} _.
Arguments getConCSRSize {cfg} _.
Arguments getConRange {cfg} _ _ _ _.
Arguments addConCSR {cfg} _ _ _ _.
Arguments evalCon {cfg} _ _ _.
Arguments evalConDVSens {cfg} _ _ _ _ _.

(** An object whose class overrides none of the design-variable
    methods. *)
Definition TACSOptObject_default {cfg : BuildConfig} : OptMethods cfg :=
  mkOptMethods TACSOptObject_setDesignVars
               TACSOptObject_getDesignVars
               TACSOptObject_getDesignVarRange.

(** An object whose class overrides none of the constraint methods. *)
Definition TACSSparseConObject_default {cfg : BuildConfig}
  : SparseConMethods cfg :=
  mkSparseConMethods TACSOptObject_default
                     TACSSparseConObject_isLinear
                     TACSSparseConObject_getNumCon
                     TACSSparseConObject_getConCSRSize
                     TACSSparseConObject_getConRange
                     TACSSparseConObject_addConCSR
                     TACSSparseConObject_evalCon
                     TACSSparseConObject_evalConDVSens.

End Opt.

(** ** Thread configuration *)

Module ThreadInfo.

(** [static const int TACS_MAX_NUM_THREADS = 16;] *)
Definition TACS_MAX_NUM_THREADS : Z := 16.

(** [class TACSThreadInfo : public TACSObject] with the one data member
    [int num_threads]. *)
Record TACSThreadInfo : Type := mkThreadInfo {
  base : RefCount.TACSObject;
  num_threads : Z
}.

(** A thread count the class allows: within [1, TACS_MAX_NUM_THREADS]. *)
Definition thread_count_ok (t : TACSThreadInfo) : Prop :=
  1 <= num_threads t <= TACS_MAX_NUM_THREADS.

(** Clamping to [1, TACS_MAX_NUM_THREADS]. *)
Definition clamp (n : Z) : Z :=
  if n <? 1 then 1
  else if TACS_MAX_NUM_THREADS <? n then TACS_MAX_NUM_THREADS
  else n.

(** Modelled from the spec: the body of
    [TACSThreadInfo::setNumThreads( int _num_threads )], declared in
    the header and defined elsewhere.  It sets the thread count.  The
    spec leaves the treatment of an out-of-range value to the
    implementer, to be the same in all setters, and recommends clamping
    to [1, MAX]; the model clamps. *)
Definition setNumThreads (t : TACSThreadInfo) (_num_threads : Z)
  : TACSThreadInfo :=
  mkThreadInfo (base t) (clamp _num_threads).

(** Modelled from the spec: the body of the constructor
    [TACSThreadInfo::TACSThreadInfo( int _num_threads )], declared in
    the header and defined elsewhere.  The count is within bounds from
    construction on, by the same clamping as in [setNumThreads]. *)
Definition TACSThreadInfo_new (_num_threads : Z) : TACSThreadInfo :=
  mkThreadInfo RefCount.TACSObject_new (clamp _num_threads).

(** Modelled from the spec: the body of
    [TACSThreadInfo::getNumThreads()], declared in the header and
    defined elsewhere.  It returns the current count. *)
Definition getNumThreads (t : TACSThreadInfo) : Z := num_threads t.

(** A thread configuration after construction with [n0] and the calls
    [setNumThreads(n)] for the [n] of [ns], in order. *)
Definition after_calls (n0 : Z) (ns : list Z) : TACSThreadInfo :=
  fold_left setNumThreads ns (TACSThreadInfo_new n0).

End ThreadInfo.

(** ** Flop counting *)

Module Flops.
Import Scalar.

(** The format of a C++ [double]: IEEE 754 binary64, with 53 bits of
    precision and exponents below 1024. *)
Definition binary64_prec : Z := 53.
Definition binary64_emax : Z := 1024.

(** [a + b] on [double]: IEEE 754 addition, rounding to nearest, ties
    to even. *)
Definition double_add (a b : double) : double :=
  SFadd binary64_prec binary64_emax a b.

(** [#define TacsAddFlops(flop) (tacs_local_flop_count += (flop));]
    under [TACS_LOG_FLOPS], and [#define TacsAddFlops(flop)] with an
    empty body otherwise.  The counter is the global
    [extern double tacs_local_flop_count]. *)
Definition TacsAddFlops (TACS_LOG_FLOPS : bool) (flop : double)
  (tacs_local_flop_count : double) : double :=
  if TACS_LOG_FLOPS then double_add tacs_local_flop_count flop
  else tacs_local_flop_count.

(** [TacsAddFlops(f1); TacsAddFlops(f2); ...] in program order. *)
Definition add_flops_all (TACS_LOG_FLOPS : bool) (flops : list double)
  (tacs_local_flop_count : double) : double :=
  fold_left (fun count flop => TacsAddFlops TACS_LOG_FLOPS flop count)
            flops tacs_local_flop_count.

End Flops.

(** ** Sequences of protocol calls *)

Module Protocol.
Import Scalar Opt.

(** One call of a virtual method of [TACSSparseConObject], with its
    arguments. *)
Inductive ProtocolCall : Type :=
| SetDesignVars (dvs numDVs : Z)
| GetDesignVars (dvs numDVs : Z)
| GetDesignVarRange (lowerBound upperBound numDVs : Z)
| IsLinear
| GetNumCon
| GetConCSRSize
| GetConRange (offset lb ub : Z)
| AddConCSR (offset rowp cols : Z)
| EvalCon (offset con : Z)
| EvalConDVSens (offset Acol rowp cols : Z).

(** The virtual call [obj->m(args)]: the [int] it returns, or [None]
    for a [void] method. *)
Definition call {cfg : BuildConfig} (obj : SparseConMethods cfg)
  (c : ProtocolCall) : Method cfg (option Z) :=
  match c with
  | SetDesignVars dvs numDVs =>
      bind (setDesignVars (opt_methods obj) dvs numDVs) (fun _ => ret None)
  | GetDesignVars dvs numDVs =>
      bind (getDesignVars (opt_methods obj) dvs numDVs) (fun _ => ret None)
  | GetDesignVarRange lowerBound upperBound numDVs =>
      bind (getDesignVarRange (opt_methods obj) lowerBound upperBound numDVs)
           (fun _ => ret None)
  | IsLinear => bind (isLinear obj) (fun r => ret (Some r))
  | GetNumCon => bind (getNumCon obj) (fun r => ret (Some r))
  | GetConCSRSize => bind (getConCSRSize obj) (fun r => ret (Some r))
  | GetConRange offset lb ub =>
      bind (getConRange obj offset lb ub) (fun r => ret (Some r))
  | AddConCSR offset rowp cols =>
      bind (addConCSR obj offset rowp cols) (fun r => ret (Some r))
  | EvalCon offset con =>
      bind (evalCon obj offset con) (fun r => ret (Some r))
  | EvalConDVSens offset Acol rowp cols =>
      bind (evalConDVSens obj offset Acol rowp cols) (fun r => ret (Some r))
  end.

(** The calls [cs] made one after the other on [obj]; the result is the
    list of what they returned.  A call that throws ends the
    sequence. *)
Fixpoint call_all {cfg : BuildConfig} (obj : SparseConMethods cfg)
  (cs : list ProtocolCall) : Method cfg (list (option Z)) :=
  match cs with
  | [] => ret []
  | c :: cs' =>
      bind (call obj c) (fun r =>
      bind (call_all obj cs') (fun rs => ret (r :: rs)))
  end.

(** What a default object answers to a call. *)
Definition default_answer (c : ProtocolCall) : option Z :=
  match c with
  | SetDesignVars _ _ | GetDesignVars _ _ | GetDesignVarRange _ _ _ => None
  | _ => Some 0
  end.

End Protocol.

(** * Properties *)

(** ** Scalars *)

Section ScalarFacts.
Import Scalar.

(** ** Ordering against [0.0] *)

Lemma SFltb_zero_sign (x : double) :
  SFltb x zero = true ->
  (exists m e, x = S754_finite true m e) \/ x = S754_infinity true.
Proof.
  destruct x as [s | s | | s m e]; cbn; try discriminate.
  - destruct s; [now right | discriminate].
  - destruct s; [left; eauto | discriminate].
Qed.

Lemma SFleb_zero_not_ltb (x : double) :
  SFleb zero x = true -> SFltb x zero = false.
Proof.
  destruct x as [s | s | | s m e]; cbn; try reflexivity;
    destruct s; cbn; congruence.
Qed.

Lemma SFltb_zero_opp_abs (x : double) :
  SFltb x zero = true -> SFopp x = SFabs x /\ SFltb zero (SFopp x) = true.
Proof.
  intros H. destruct (SFltb_zero_sign x H) as [(m & e & ->) | ->];
    cbn; split; reflexivity.
Qed.

(** C3: [fabs] on a complex scalar.  When the real part of [c] is
    below zero, [fabs c] is [-c]: its real part is the (strictly
    positive) magnitude of the real part of [c] and its imaginary part
    is the negated imaginary part of [c].  When the real part of [c]
    is at least zero, [fabs c] is [c] itself. *)
Theorem fabs_flips_whole_value (c : TacsComplex) :
  (SFltb (real c) zero = true ->
     fabs c = complex_opp c /\
     real (fabs c) = SFabs (real c) /\
     SFltb zero (real (fabs c)) = true /\
     imag (fabs c) = SFopp (imag c)) /\
  (SFleb zero (real c) = true -> fabs c = c).
Proof.
  unfold fabs. split.
  - intros Hneg. rewrite Hneg. cbn.
    destruct (SFltb_zero_opp_abs _ Hneg) as [Habs Hpos].
    now rewrite Habs, <- Habs.
  - intros Hge. now rewrite (SFleb_zero_not_ltb _ Hge).
Qed.

(** C4: in the real build, the imaginary part of any scalar is [0.0]. *)
Theorem ImagPart_real_build_zero (x : TacsScalar RealBuild) :
  ImagPart_scalar RealBuild x = zero.
Proof. reflexivity. Qed.

(** C5: [RealPart] yields the primal value in either build: a plain
    real [r] is returned as it is, and a complex value yields its real
    component. *)
Theorem RealPart_primal :
  (forall r : double, RealPart_double r = r) /\
  (forall re im : double, RealPart_complex (mkComplex re im) = re) /\
  (forall r : TacsScalar RealBuild, RealPart RealBuild r = r) /\
  (forall c : TacsScalar ComplexBuild, RealPart ComplexBuild c = real c).
Proof. repeat split. Qed.

(** [fabs] at [-1.5 + 2i] and at [1.5 + 2i]. *)
Lemma fabs_flips_whole_value_witness :
  let neg := mkComplex (S754_finite true 3 (-1)) (S754_finite false 1 1) in
  let pos := mkComplex (S754_finite false 3 (-1)) (S754_finite false 1 1) in
  (SFltb (real neg) zero = true /\
   fabs neg = mkComplex (S754_finite false 3 (-1)) (S754_finite true 1 1)) /\
  (SFleb zero (real pos) = true /\ fabs pos = pos).
Proof.
  intros neg pos.
  assert (Hn : SFltb (real neg) zero = true) by reflexivity.
  assert (Hp : SFleb zero (real pos) = true) by reflexivity.
  split; split;
    [exact Hn | | exact Hp | exact (proj2 (fabs_flips_whole_value pos) Hp)].
  rewrite (proj1 (proj1 (fabs_flips_whole_value neg) Hn)). reflexivity.
Defined.

End ScalarFacts.

(** ** Reference counting *)

Section RefCountFacts.
Import RefCount.

(** *** Arithmetic of [int] *)

Lemma wrap_int_id (z : Z) : INT_MIN <= z <= INT_MAX -> wrap_int z = z.
Proof.
  unfold INT_MIN, INT_MAX, wrap_int.
  change (2 ^ 31) with 2147483648. change (2 ^ 32) with 4294967296.
  intros H. rewrite Z.mod_small; lia.
Qed.

Lemma wrap_int_range (z : Z) : INT_MIN <= wrap_int z <= INT_MAX.
Proof.
  unfold INT_MIN, INT_MAX, wrap_int.
  change (2 ^ 31) with 2147483648. change (2 ^ 32) with 4294967296.
  pose proof (Z.mod_pos_bound (z + 2147483648) 4294967296). lia.
Qed.

Lemma wrap_int_succ_pred (z : Z) :
  INT_MIN <= z <= INT_MAX -> wrap_int (wrap_int (z + 1) - 1) = z.
Proof.
  intros H. destruct (Z.eq_dec z INT_MAX) as [-> | Hne].
  - reflexivity.
  - rewrite (wrap_int_id (z + 1)) by lia.
    replace (z + 1 - 1) with z by lia. now apply wrap_int_id.
Qed.

Lemma incref_in_range (c : Z) :
  INT_MIN <= c -> c + 1 <= INT_MAX ->
  incref (mkObject c) = mkObject (c + 1).
Proof.
  intros Hlo Hhi. unfold incref. cbn [ref_count].
  now rewrite wrap_int_id by lia.
Qed.

Lemma decref_above_one (c : Z) :
  1 < c -> c <= INT_MAX ->
  decref (mkObject c) = Live (mkObject (c - 1)).
Proof.
  intros Hlo Hhi. unfold decref. cbn [ref_count].
  rewrite wrap_int_id by (unfold INT_MIN; lia).
  destruct (Z.eqb_spec (c - 1) 0); [lia | reflexivity].
Qed.

(** *** Running blocks of identical calls *)

Lemma run_app (a b : list Call) (e : Exec) :
  run (a ++ b) e =
  match run a e with Some e' => run b e' | None => None end.
Proof.
  revert e. induction a as [| c a IH]; intros e; cbn; [reflexivity |].
  destruct (step c e); [apply IH | reflexivity].
Qed.

Lemma run_increfs (n : nat) (c : Z) (d : nat) :
  INT_MIN <= c -> c + Z.of_nat n <= INT_MAX ->
  run (repeat Incref n) (mkExec (Live (mkObject c)) d) =
  Some (mkExec (Live (mkObject (c + Z.of_nat n))) d).
Proof.
  revert c. induction n as [| n IH]; intros c Hlo Hhi.
  - cbn. now rewrite Z.add_0_r.
  - cbn [repeat run step slot destructions].
    rewrite incref_in_range by lia. rewrite IH by lia.
    do 4 f_equal. lia.
Qed.

Lemma run_decrefs_above (n : nat) (c : Z) (d : nat) :
  Z.of_nat n < c -> c <= INT_MAX ->
  run (repeat Decref n) (mkExec (Live (mkObject c)) d) =
  Some (mkExec (Live (mkObject (c - Z.of_nat n))) d).
Proof.
  revert c. induction n as [| n IH]; intros c Hlo Hhi.
  - cbn. now rewrite Z.sub_0_r.
  - cbn [repeat run step slot destructions].
    rewrite decref_above_one by lia. rewrite IH by lia.
    do 4 f_equal. lia.
Qed.

Lemma run_last_decref (d : nat) :
  run [Decref] (mkExec (Live (mkObject 1)) d) = Some (mkExec Destroyed (S d)).
Proof. reflexivity. Qed.

Lemma run_decrefs_to_zero (n : nat) (d : nat) :
  Z.of_nat (S n) <= INT_MAX ->
  run (repeat Decref (S n)) (mkExec (Live (mkObject (Z.of_nat (S n)))) d) =
  Some (mkExec Destroyed (S d)).
Proof.
  intros Hhi.
  replace (S n) with (n + 1)%nat at 1 by lia.
  rewrite repeat_app, run_app, run_decrefs_above by lia.
  replace (Z.of_nat (S n) - Z.of_nat n) with 1 by lia.
  apply run_last_decref.
Qed.

Lemma firstn_repeat {A} (x : A) (k n : nat) :
  firstn k (repeat x n) = repeat x (Nat.min k n).
Proof.
  revert n. induction k as [| k IH]; intros [| n]; cbn; try reflexivity.
  now rewrite IH.
Qed.

Lemma firstn_calls (N k : nat) :
  firstn k (increfs_then_decrefs N) =
  repeat Incref (Nat.min k N) ++ repeat Decref (Nat.min (k - N) N).
Proof.
  unfold increfs_then_decrefs.
  rewrite firstn_app, repeat_length, !firstn_repeat. reflexivity.
Qed.

Lemma run_prefix (N k : nat) :
  Z.of_nat N <= INT_MAX -> (k < 2 * N)%nat ->
  run (firstn k (increfs_then_decrefs N)) fresh =
  Some (mkExec (Live (mkObject (count_after N k))) 0).
Proof.
  intros Hhi Hk. unfold fresh, TACSObject_new, count_after.
  rewrite firstn_calls, run_app.
  rewrite run_increfs by (unfold INT_MIN; lia).
  destruct (Nat.leb_spec k N) as [Hle | Hgt].
  - replace (k - N)%nat with 0%nat by lia. cbn [Nat.min repeat run].
    do 4 f_equal. lia.
  - rewrite run_decrefs_above by lia. do 4 f_equal. lia.
Qed.

Lemma count_after_positive (N k : nat) :
  (1 <= k < 2 * N)%nat -> 0 < count_after N k.
Proof.
  intros Hk. unfold count_after. destruct (Nat.leb_spec k N); lia.
Qed.

(** C1: starting from a freshly constructed object (count 0), [N]
    calls of [incref] followed by [N] calls of [decref] run the
    destructor exactly once, and they do so on the final [decref]:
    after every shorter prefix of the calls the object is still alive,
    no destructor has run, and once a call has been made its count is
    above zero; the count is 1 when the final [decref] starts. *)
Theorem increfs_then_decrefs_destroy_once (N : nat) :
  (1 <= N)%nat -> Z.of_nat N <= INT_MAX ->
  run (increfs_then_decrefs N) fresh = Some (mkExec Destroyed 1) /\
  (forall k : nat, (k < length (increfs_then_decrefs N))%nat ->
     run (firstn k (increfs_then_decrefs N)) fresh =
       Some (mkExec (Live (mkObject (count_after N k))) 0) /\
     ((1 <= k)%nat -> 0 < count_after N k)) /\
  count_after N (length (increfs_then_decrefs N) - 1) = 1.
Proof.
  intros Hpos Hhi.
  assert (Hlen : length (increfs_then_decrefs N) = (2 * N)%nat).
  { unfold increfs_then_decrefs. rewrite length_app, !repeat_length. lia. }
  rewrite Hlen. split; [| split].
  - unfold increfs_then_decrefs, fresh, TACSObject_new.
    rewrite run_app, run_increfs by (unfold INT_MIN; lia).
    destruct N as [| n]; [lia |]. cbn [Z.add].
    now rewrite run_decrefs_to_zero.
  - intros k Hk. split.
    + now apply run_prefix.
    + intros Hk1. apply count_after_positive. lia.
  - unfold count_after. destruct (Nat.leb_spec (2 * N - 1) N); lia.
Qed.

(** Three owners take and release an object. *)
Lemma increfs_then_decrefs_destroy_once_witness :
  (1 <= 3)%nat /\ Z.of_nat 3 <= INT_MAX /\
  run (increfs_then_decrefs 3) fresh = Some (mkExec Destroyed 1).
Proof.
  assert (H1 : (1 <= 3)%nat) by lia.
  assert (H2 : Z.of_nat 3 <= INT_MAX) by (vm_compute; discriminate).
  split; [exact H1 | split; [exact H2 |]].
  exact (proj1 (increfs_then_decrefs_destroy_once 3 H1 H2)).
Defined.

(** C2, as stated, fails on an object nobody owns yet: on a freshly
    constructed object, [incref(); decref();] takes the count from 0 to
    1 and back to 0, and that [decref] destroys the object. *)
Lemma incref_decref_destroys_unowned :
  run [Incref; Decref] fresh = Some (mkExec Destroyed 1) /\
  ~ pair_is_neutral TACSObject_new 0.
Proof.
  split; [reflexivity |].
  intros [o' [Hrun _]]. cbn in Hrun. discriminate Hrun.
Qed.

(** C2, amended: on an object whose count is not 0, [incref()]
    immediately followed by [decref()] leaves the object alive with its
    count as it was, and runs no destructor. *)
Theorem incref_decref_neutral_when_counted (o : TACSObject) (d : nat) :
  INT_MIN <= refcount o <= INT_MAX -> refcount o <> 0 ->
  run [Incref; Decref] (mkExec (Live o) d) = Some (mkExec (Live o) d) /\
  pair_is_neutral o d.
Proof.
  intros Hrange Hne. destruct o as [c]. cbn [refcount ref_count] in *.
  assert (Hrun : run [Incref; Decref] (mkExec (Live (mkObject c)) d) =
                 Some (mkExec (Live (mkObject c)) d)).
  { cbn [run step slot destructions]. unfold decref, incref.
    cbn [ref_count]. rewrite wrap_int_succ_pred by exact Hrange.
    destruct (Z.eqb_spec c 0); [contradiction | reflexivity]. }
  split; [exact Hrun |]. exists (mkObject c). now split.
Qed.

(** An object with one owner. *)
Lemma incref_decref_neutral_when_counted_witness :
  INT_MIN <= refcount (mkObject 1) <= INT_MAX /\
  refcount (mkObject 1) <> 0 /\
  pair_is_neutral (mkObject 1) 0.
Proof.
  assert (H1 : INT_MIN <= refcount (mkObject 1) <= INT_MAX)
    by (split; vm_compute; discriminate).
  assert (H2 : refcount (mkObject 1) <> 0) by discriminate.
  split; [exact H1 | split; [exact H2 |]].
  exact (proj2 (incref_decref_neutral_when_counted (mkObject 1) 0 H1 H2)).
Defined.

End RefCountFacts.

(** ** Process-wide initialisation *)

Section InitFacts.
Import Init.

Lemma TacsInitialize_sets_flag (p : Process) :
  truthy (TacsIsInitialized (TacsInitialize p)) = true.
Proof.
  unfold TacsInitialize, TacsIsInitialized.
  destruct (truthy (initialized p)) eqn:E; [exact E | reflexivity].
Qed.

Lemma TacsInitialize_when_initialized (p : Process) :
  truthy (TacsIsInitialized p) = true -> TacsInitialize p = p.
Proof.
  unfold TacsInitialize, TacsIsInitialized. now intros ->.
Qed.

(** C6: [TacsIsInitialized()] returns 0 before any call of
    [TacsInitialize()], a nonzero value after one call, and a nonzero
    value after a second call; the second call sends no request to the
    substrate, and, from any state, calling [TacsInitialize()] twice
    leaves the process as calling it once does. *)
Theorem TacsInitialize_idempotent :
  TacsIsInitialized process_start = 0 /\
  truthy (TacsIsInitialized (TacsInitialize process_start)) = true /\
  truthy (TacsIsInitialized (TacsInitialize (TacsInitialize process_start)))
    = true /\
  substrate_calls (TacsInitialize process_start) =
    [Op_create TACS_MPI_MIN; Op_create TACS_MPI_MAX] /\
  substrate_calls (TacsInitialize (TacsInitialize process_start)) =
    substrate_calls (TacsInitialize process_start) /\
  (forall p : Process, TacsInitialize (TacsInitialize p) = TacsInitialize p).
Proof.
  assert (Hidem : forall p, TacsInitialize (TacsInitialize p) = TacsInitialize p).
  { intros p. apply TacsInitialize_when_initialized, TacsInitialize_sets_flag. }
  repeat split; try reflexivity; try apply TacsInitialize_sets_flag.
  exact Hidem.
Qed.

End InitFacts.

(** ** Design variables and sparse constraints *)

Section OptFacts.
Import Scalar Opt.
Context {cfg : BuildConfig}.

(** A body that stores into an array does change the world: the frame
    statements below separate the default bodies from such bodies. *)
Lemma store_scalar_lookup (a i : Z) (v : TacsScalar cfg) (w : World cfg) :
  scalar_cells (snd (store_scalar a i v w)) !! (a + i) = Some v.
Proof. cbn. apply lookup_insert_eq. Qed.

Lemma store_int_lookup (a i v : Z) (w : World cfg) :
  int_cells (snd (store_int a i v w)) !! (a + i) = Some v.
Proof. cbn. apply lookup_insert_eq. Qed.

Lemma ret_frame {A : Type} (a : A) (w : World cfg) : ret a w = (Returned a, w).
Proof. reflexivity. Qed.

(** C7: on a [TACSSparseConObject] that overrides none of the constraint
    methods, each of [isLinear], [getNumCon], [getConCSRSize],
    [getConRange], [addConCSR], [evalCon] and [evalConDVSens] returns 0
    and leaves the world, hence every array of the caller, as it was,
    whatever offset and arrays are passed. *)
Theorem sparse_con_defaults_return_zero
  (w : World cfg) (offset lb ub rowp cols con Acol : Z) :
  let obj := @TACSSparseConObject_default cfg in
  isLinear obj w = (Returned 0, w) /\
  getNumCon obj w = (Returned 0, w) /\
  getConCSRSize obj w = (Returned 0, w) /\
  getConRange obj offset lb ub w = (Returned 0, w) /\
  addConCSR obj offset rowp cols w = (Returned 0, w) /\
  evalCon obj offset con w = (Returned 0, w) /\
  evalConDVSens obj offset Acol rowp cols w = (Returned 0, w).
Proof.
  intros obj. subst obj.
  unfold TACSSparseConObject_default; cbn [isLinear getNumCon getConCSRSize
    getConRange addConCSR evalCon evalConDVSens].
  unfold TACSSparseConObject_isLinear, TACSSparseConObject_getNumCon,
    TACSSparseConObject_getConCSRSize, TACSSparseConObject_getConRange,
    TACSSparseConObject_addConCSR, TACSSparseConObject_evalCon,
    TACSSparseConObject_evalConDVSens.
  rewrite !ret_frame. repeat split.
Qed.

(** C8: on a [TACSOptObject] that overrides none of the design-variable
    methods, [setDesignVars], [getDesignVars] and [getDesignVarRange]
    return normally and leave the object and every array as they were,
    for every argument; the same holds for the methods a
    [TACSSparseConObject] inherits. *)
Theorem opt_defaults_are_noops
  (w : World cfg) (dvs lowerBound upperBound numDVs : Z) :
  let obj := @TACSOptObject_default cfg in
  setDesignVars obj dvs numDVs w = (Returned tt, w) /\
  getDesignVars obj dvs numDVs w = (Returned tt, w) /\
  getDesignVarRange obj lowerBound upperBound numDVs w = (Returned tt, w) /\
  opt_methods TACSSparseConObject_default = obj.
Proof.
  intros obj. subst obj.
  unfold TACSOptObject_default; cbn [setDesignVars getDesignVars
    getDesignVarRange].
  unfold TACSOptObject_setDesignVars, TACSOptObject_getDesignVars,
    TACSOptObject_getDesignVarRange.
  rewrite !ret_frame. repeat split.
Qed.

End OptFacts.

(** ** Thread configuration *)

Section ThreadInfoFacts.
Import ThreadInfo.

Lemma clamp_bounds (n : Z) : 1 <= clamp n <= TACS_MAX_NUM_THREADS.
Proof.
  unfold clamp, TACS_MAX_NUM_THREADS.
  destruct (Z.ltb_spec n 1); [lia |].
  destruct (Z.ltb_spec 16 n); lia.
Qed.

Lemma clamp_in_range (n : Z) :
  1 <= n <= TACS_MAX_NUM_THREADS -> clamp n = n.
Proof.
  unfold clamp, TACS_MAX_NUM_THREADS. intros H.
  destruct (Z.ltb_spec n 1); [lia |].
  destruct (Z.ltb_spec 16 n); [lia | reflexivity].
Qed.

Lemma clamp_below (n : Z) : n < 1 -> clamp n = 1.
Proof. unfold clamp. intros H. destruct (Z.ltb_spec n 1); [reflexivity | lia]. Qed.

Lemma clamp_above (n : Z) :
  TACS_MAX_NUM_THREADS < n -> clamp n = TACS_MAX_NUM_THREADS.
Proof.
  unfold clamp, TACS_MAX_NUM_THREADS. intros H.
  destruct (Z.ltb_spec n 1); [lia |].
  destruct (Z.ltb_spec 16 n); [reflexivity | lia].
Qed.

Lemma TACSThreadInfo_new_ok (n : Z) : thread_count_ok (TACSThreadInfo_new n).
Proof. apply clamp_bounds. Qed.

Lemma setNumThreads_ok (t : TACSThreadInfo) (n : Z) :
  thread_count_ok (setNumThreads t n).
Proof. apply clamp_bounds. Qed.

Lemma fold_setNumThreads_ok (ns : list Z) :
  forall t, thread_count_ok t ->
            thread_count_ok (fold_left setNumThreads ns t).
Proof.
  induction ns as [| n ns IH]; intros t Ht; cbn; [exact Ht |].
  apply IH, setNumThreads_ok.
Qed.

Lemma after_calls_snoc (n0 : Z) (ns : list Z) (n : Z) :
  after_calls n0 (ns ++ [n]) = setNumThreads (after_calls n0 ns) n.
Proof. unfold after_calls. now rewrite fold_left_app. Qed.

(** C9: the stored thread count is within [1, TACS_MAX_NUM_THREADS]
    after construction and after every [setNumThreads] call, whatever
    the arguments.  The constructor and [setNumThreads] treat their
    argument alike: a value within the range is stored as it is, a
    value below 1 is clamped to 1, and a value above
    [TACS_MAX_NUM_THREADS] is clamped to [TACS_MAX_NUM_THREADS]. *)
Theorem thread_count_within_bounds (n0 : Z) (ns : list Z) (n : Z) :
  thread_count_ok (TACSThreadInfo_new n0) /\
  thread_count_ok (after_calls n0 ns) /\
  (1 <= n <= TACS_MAX_NUM_THREADS ->
     getNumThreads (TACSThreadInfo_new n) = n /\
     getNumThreads (after_calls n0 (ns ++ [n])) = n) /\
  (n < 1 ->
     getNumThreads (TACSThreadInfo_new n) = 1 /\
     getNumThreads (after_calls n0 (ns ++ [n])) = 1) /\
  (TACS_MAX_NUM_THREADS < n ->
     getNumThreads (TACSThreadInfo_new n) = TACS_MAX_NUM_THREADS /\
     getNumThreads (after_calls n0 (ns ++ [n])) = TACS_MAX_NUM_THREADS).
Proof.
  split; [apply TACSThreadInfo_new_ok |].
  split; [apply fold_setNumThreads_ok, TACSThreadInfo_new_ok |].
  rewrite after_calls_snoc.
  unfold getNumThreads, setNumThreads, TACSThreadInfo_new.
  cbn [num_threads].
  split; [| split]; intros H.
  - now rewrite clamp_in_range.
  - now rewrite clamp_below.
  - now rewrite clamp_above.
Qed.

(** Construction with 0 threads, two settings within the range, then a
    request for 99 threads, for -3 threads and for 7 threads. *)
Lemma thread_count_within_bounds_witness :
  (TACS_MAX_NUM_THREADS < 99 /\
   getNumThreads (after_calls 0 ([5; 12] ++ [99])) = 16) /\
  (-3 < 1 /\ getNumThreads (after_calls 0 ([5; 12] ++ [-3])) = 1) /\
  (1 <= 7 <= TACS_MAX_NUM_THREADS /\
   getNumThreads (after_calls 0 ([5; 12] ++ [7])) = 7).
Proof.
  assert (Habove : TACS_MAX_NUM_THREADS < 99) by reflexivity.
  assert (Hbelow : -3 < 1) by reflexivity.
  assert (Hin : 1 <= 7 <= TACS_MAX_NUM_THREADS)
    by (split; vm_compute; discriminate).
  destruct (thread_count_within_bounds 0 [5; 12] 99) as (_ & _ & _ & _ & H99).
  destruct (thread_count_within_bounds 0 [5; 12] (-3)) as (_ & _ & _ & Hm3 & _).
  destruct (thread_count_within_bounds 0 [5; 12] 7) as (_ & _ & H7 & _ & _).
  split; [| split]; split;
    [exact Habove | exact (proj2 (H99 Habove))
    | exact Hbelow | exact (proj2 (Hm3 Hbelow))
    | exact Hin | exact (proj2 (H7 Hin))].
Defined.

(** C10: the maximum thread count is the constant 16, so no thread
    count that is within the bounds of the class exceeds 16. *)
Theorem max_num_threads_is_16 :
  TACS_MAX_NUM_THREADS = 16 /\
  (forall t : TACSThreadInfo, thread_count_ok t -> num_threads t <= 16).
Proof.
  split; [reflexivity |]. intros t [_ Hhi]. exact Hhi.
Qed.

(** A configuration at the maximum. *)
Lemma max_num_threads_is_16_witness :
  thread_count_ok (mkThreadInfo RefCount.TACSObject_new 16) /\
  num_threads (mkThreadInfo RefCount.TACSObject_new 16) <= 16.
Proof.
  assert (Hok : thread_count_ok (mkThreadInfo RefCount.TACSObject_new 16))
    by (split; vm_compute; discriminate).
  split; [exact Hok |].
  exact (proj2 max_num_threads_is_16 _ Hok).
Defined.

End ThreadInfoFacts.

(** ** More on [fabs] *)

Section FabsFacts.
Import Scalar Flops.

Lemma SFopp_involutive (x : double) : SFopp (SFopp x) = x.
Proof. destruct x as [s | s | | s m e]; cbn; now rewrite ?negb_involutive. Qed.

Lemma SFabs_opp (x : double) : SFabs (SFopp x) = SFabs x.
Proof. now destruct x. Qed.

Lemma SFltb_opp_zero (x : double) : SFltb (SFopp x) zero = SFltb zero x.
Proof. destruct x as [s | s | | s m e]; try reflexivity; now destruct s. Qed.

Lemma SFltb_zero_asym (x : double) :
  SFltb x zero = true -> SFltb zero x = false.
Proof.
  destruct x as [s | s | | s m e]; try reflexivity; now destruct s.
Qed.

Lemma complex_opp_involutive (c : TacsComplex) :
  complex_opp (complex_opp c) = c.
Proof.
  destruct c as [re im]. unfold complex_opp. cbn [real imag].
  now rewrite !SFopp_involutive.
Qed.

Lemma fabs_below_zero (c : TacsComplex) :
  SFltb (real c) zero = true -> fabs c = complex_opp c.
Proof. unfold fabs. now intros ->. Qed.

Lemma fabs_not_below_zero (c : TacsComplex) :
  SFltb (real c) zero = false -> fabs c = c.
Proof. unfold fabs. now intros ->. Qed.

(** X1: [fabs] is idempotent: applying it to its own result changes
    nothing, for every complex value, NaN and infinities included. *)
Theorem fabs_idempotent (c : TacsComplex) : fabs (fabs c) = fabs c.
Proof.
  destruct (SFltb (real c) zero) eqn:E.
  - rewrite (fabs_below_zero c E). apply fabs_not_below_zero.
    cbn [complex_opp real]. rewrite SFltb_opp_zero.
    now apply SFltb_zero_asym.
  - rewrite (fabs_not_below_zero c E). now apply fabs_not_below_zero.
Qed.

(** X2: the real part of [fabs c] is never below zero, and unless the
    real part of [c] is NaN it compares at least zero. *)
Theorem fabs_real_not_below_zero (c : TacsComplex) :
  SFltb (real (fabs c)) zero = false /\
  (real c <> S754_nan -> SFleb zero (real (fabs c)) = true).
Proof.
  destruct c as [re im]. unfold fabs. cbn [real].
  destruct re as [s | s | | s m e]; try destruct s; cbn; split;
    try reflexivity; try (intros _; reflexivity).
  intros H. now contradiction H.
Qed.

(** [fabs] at [-1.5 + 2i]. *)
Lemma fabs_real_not_below_zero_witness :
  real (mkComplex (S754_finite true 3 (-1)) (S754_finite false 1 1))
    <> S754_nan /\
  SFleb zero
    (real (fabs (mkComplex (S754_finite true 3 (-1)) (S754_finite false 1 1))))
    = true.
Proof.
  assert (H : real (mkComplex (S754_finite true 3 (-1)) (S754_finite false 1 1))
              <> S754_nan) by discriminate.
  split; [exact H |].
  exact (proj2 (fabs_real_not_below_zero _) H).
Defined.

(** X3: [fabs] changes signs only: the magnitude of the real part and
    the magnitude of the imaginary part are those of the argument. *)
Theorem fabs_keeps_magnitudes (c : TacsComplex) :
  SFabs (real (fabs c)) = SFabs (real c) /\
  SFabs (imag (fabs c)) = SFabs (imag c).
Proof.
  unfold fabs. destruct (SFltb (real c) zero); cbn [complex_opp real imag];
    now rewrite ?SFabs_opp.
Qed.

(** X4: away from the kink, [fabs] is even: when the real part of [c]
    is below zero or above zero, [fabs (-c)] is [fabs c]. *)
Theorem fabs_even_off_zero (c : TacsComplex) :
  SFltb (real c) zero = true \/ SFltb zero (real c) = true ->
  fabs (complex_opp c) = fabs c.
Proof.
  intros [Hneg | Hpos].
  - rewrite (fabs_below_zero c Hneg). apply fabs_not_below_zero.
    cbn [complex_opp real]. rewrite SFltb_opp_zero.
    now apply SFltb_zero_asym.
  - assert (Hnn : SFltb (real c) zero = false).
    { destruct (SFltb (real c) zero) eqn:E; [| reflexivity].
      apply SFltb_zero_asym in E. congruence. }
    rewrite (fabs_not_below_zero c Hnn), fabs_below_zero.
    + apply complex_opp_involutive.
    + cbn [complex_opp real]. now rewrite SFltb_opp_zero.
Qed.

(** [fabs] at [1.5 + 2i] and at its negation. *)
Lemma fabs_even_off_zero_witness :
  let c := mkComplex (S754_finite false 3 (-1)) (S754_finite false 1 1) in
  (SFltb (real c) zero = true \/ SFltb zero (real c) = true) /\
  fabs (complex_opp c) = fabs c.
Proof.
  intros c.
  assert (H : SFltb (real c) zero = true \/ SFltb zero (real c) = true)
    by (right; reflexivity).
  split; [exact H | exact (fabs_even_off_zero c H)].
Defined.

Lemma SFopp_differs_off_zero (x : double) :
  SFltb x zero = true \/ SFltb zero x = true ->
  SFeqb (SFopp x) x = false /\ SFopp x <> x.
Proof.
  intros H. destruct x as [s | s | | s m e].
  - destruct H as [H | H]; destruct s; discriminate H.
  - destruct s; cbn; split; [reflexivity | discriminate | reflexivity | discriminate].
  - destruct H as [H | H]; discriminate H.
  - destruct s; cbn; split; [reflexivity | discriminate | reflexivity | discriminate].
Qed.

(** X5: at the kink [fabs] is the identity on both [c] and [-c]: when
    the real part of [c] is neither below nor above zero (a zero of
    either sign, or NaN), [fabs c] is [c] and [fabs (-c)] is [-c], so
    the imaginary part of [fabs (-c)] is the negated imaginary part of
    [fabs c].  [fabs] is not even there: when the imaginary part of [c]
    is below or above zero, the two imaginary parts compare unequal and
    [fabs (-c)] differs from [fabs c]. *)
Theorem fabs_identity_at_kink (c : TacsComplex) :
  SFltb (real c) zero = false -> SFltb zero (real c) = false ->
  fabs c = c /\
  fabs (complex_opp c) = complex_opp c /\
  imag (fabs (complex_opp c)) = SFopp (imag (fabs c)) /\
  (SFltb (imag c) zero = true \/ SFltb zero (imag c) = true ->
     SFeqb (imag (fabs (complex_opp c))) (imag (fabs c)) = false /\
     fabs (complex_opp c) <> fabs c).
Proof.
  intros Hnn Hnp.
  assert (H1 : fabs c = c) by now apply fabs_not_below_zero.
  assert (H2 : fabs (complex_opp c) = complex_opp c).
  { apply fabs_not_below_zero. cbn [complex_opp real].
    now rewrite SFltb_opp_zero. }
  rewrite H1, H2. repeat split.
  - now apply SFopp_differs_off_zero.
  - intros Heq. apply (f_equal imag) in Heq. cbn [complex_opp imag] in Heq.
    now apply (proj2 (SFopp_differs_off_zero (imag c) H)).
Qed.

(** [fabs] at [0 + 2i] and at its negation. *)
Lemma fabs_identity_at_kink_witness :
  let c := mkComplex zero (S754_finite false 1 1) in
  SFltb (real c) zero = false /\ SFltb zero (real c) = false /\
  (SFltb (imag c) zero = true \/ SFltb zero (imag c) = true) /\
  fabs (complex_opp c) = mkComplex (S754_zero true) (S754_finite true 1 1) /\
  fabs (complex_opp c) <> fabs c.
Proof.
  intros c.
  assert (Hnn : SFltb (real c) zero = false) by reflexivity.
  assert (Hnp : SFltb zero (real c) = false) by reflexivity.
  assert (Him : SFltb (imag c) zero = true \/ SFltb zero (imag c) = true)
    by (right; reflexivity).
  destruct (fabs_identity_at_kink c Hnn Hnp) as (_ & Hopp & _ & Hdiff).
  split; [exact Hnn | split; [exact Hnp | split; [exact Him | split]]].
  - rewrite Hopp. reflexivity.
  - exact (proj2 (Hdiff Him)).
Defined.

(** X6: when the real part of [c] is not NaN, the real part of [fabs c]
    is the absolute value of the real part of [c], with one exception:
    a real part of [-0.0] is kept as it is, sign bit included, where the
    absolute value would be [+0.0]. *)
Theorem fabs_real_is_abs_except_negative_zero (c : TacsComplex) :
  real c <> S754_nan ->
  (real c <> S754_zero true -> real (fabs c) = SFabs (real c)) /\
  (real c = S754_zero true ->
     fabs c = c /\ SFabs (real c) = zero /\ real (fabs c) = S754_zero true).
Proof.
  intros Hnan. destruct c as [re im]. unfold fabs. cbn [real] in *. split.
  - intros Hne.
    destruct re as [s | s | | s m e]; try destruct s; cbn; try reflexivity.
    now contradiction Hne.
  - intros ->. cbn. repeat split.
Qed.

(** [fabs] at [-1.5 + 2i] and at [-0.0 + 2i]. *)
Lemma fabs_real_is_abs_except_negative_zero_witness :
  let c1 := mkComplex (S754_finite true 3 (-1)) (S754_finite false 1 1) in
  let c2 := mkComplex (S754_zero true) (S754_finite false 1 1) in
  (real c1 <> S754_nan /\ real c1 <> S754_zero true /\
   real (fabs c1) = S754_finite false 3 (-1)) /\
  (real c2 <> S754_nan /\ real c2 = S754_zero true /\ fabs c2 = c2).
Proof.
  intros c1 c2.
  assert (N1 : real c1 <> S754_nan) by discriminate.
  assert (N2 : real c2 <> S754_nan) by discriminate.
  assert (H1 : real c1 <> S754_zero true) by discriminate.
  assert (H2 : real c2 = S754_zero true) by reflexivity.
  split; (split; [| split]); [exact N1 | exact H1 | | exact N2 | exact H2 | ].
  - rewrite (proj1 (fabs_real_is_abs_except_negative_zero c1 N1) H1).
    reflexivity.
  - exact (proj1 (proj2 (fabs_real_is_abs_except_negative_zero c2 N2) H2)).
Defined.

(** X8: [fabs] of a real number passed as a complex value: the
    imaginary part of the result is a zero, [-0.0] when the number is
    below zero and [+0.0] otherwise, and it compares equal to [0.0]. *)
Theorem fabs_of_real_has_zero_imag (r : double) :
  ImagPart (fabs (complex_of_double r)) = S754_zero (SFltb r zero) /\
  SFeqb (ImagPart (fabs (complex_of_double r))) zero = true.
Proof.
  unfold fabs, complex_of_double, ImagPart. cbn [real].
  destruct (SFltb r zero); cbn; split; reflexivity.
Qed.

End FabsFacts.

(** ** Flop counting *)

Section FlopsFacts.
Import Scalar Flops.

Lemma add_flops_all_off (flops : list double) (count : double) :
  add_flops_all false flops count = count.
Proof.
  unfold add_flops_all. revert count.
  induction flops as [| f flops IH]; intros count; cbn; [reflexivity |].
  apply IH.
Qed.

Lemma add_flops_all_nan (flops : list double) :
  add_flops_all true flops S754_nan = S754_nan.
Proof.
  unfold add_flops_all.
  induction flops as [| f flops IH]; cbn; [reflexivity | exact IH].
Qed.

Lemma double_add_nan_r (x : double) : double_add x S754_nan = S754_nan.
Proof. now destruct x. Qed.

(** X9: a series of [TacsAddFlops] calls.  Without [TACS_LOG_FLOPS] the
    counter is what it was, whatever is passed.  With [TACS_LOG_FLOPS] a
    NaN is never lost: if the counter is NaN before the calls, or one of
    the arguments is NaN, the counter is NaN after them. *)
Theorem TacsAddFlops_series (flops : list double) (count : double) :
  add_flops_all false flops count = count /\
  (count = S754_nan \/ In S754_nan flops ->
   add_flops_all true flops count = S754_nan).
Proof.
  split; [apply add_flops_all_off |].
  intros [-> | Hin]; [apply add_flops_all_nan |].
  revert count. induction flops as [| f flops IH]; intros count;
    [contradiction |].
  destruct Hin as [-> | Hin].
  - change (add_flops_all true (S754_nan :: flops) count)
      with (add_flops_all true flops (double_add count S754_nan)).
    rewrite double_add_nan_r. apply add_flops_all_nan.
  - change (add_flops_all true (f :: flops) count)
      with (add_flops_all true flops (double_add count f)).
    now apply IH.
Qed.

(** Three calls, the second with a NaN. *)
Lemma TacsAddFlops_series_witness :
  let flops := [S754_finite false 1 1; S754_nan; S754_finite false 3 0] in
  (zero = S754_nan \/ In S754_nan flops) /\
  add_flops_all true flops zero = S754_nan.
Proof.
  intros flops.
  assert (H : zero = S754_nan \/ In S754_nan flops)
    by (right; right; left; reflexivity).
  split; [exact H | exact (proj2 (TacsAddFlops_series flops zero) H)].
Defined.

End FlopsFacts.

(** ** Sequences of protocol calls *)

Section ProtocolFacts.
Import Scalar Opt Protocol.
Context {cfg : BuildConfig}.

Lemma call_default (c : ProtocolCall) (w : World cfg) :
  call TACSSparseConObject_default c w = (Returned (default_answer c), w).
Proof. destruct c; reflexivity. Qed.

(** X10: any series of protocol calls on an object that overrides
    nothing, in any order and with any arguments, runs to its end
    without a throw, leaves the object and the memory of the caller as
    they were, and answers 0 to every call of an [int] method. *)
Theorem call_all_default (cs : list ProtocolCall) (w : World cfg) :
  call_all TACSSparseConObject_default cs w =
    (Returned (map default_answer cs), w) /\
  Forall (fun r => r = None \/ r = Some 0) (map default_answer cs).
Proof.
  split.
  - induction cs as [| c cs IH]; [reflexivity |].
    cbn [call_all map]. unfold bind at 1. rewrite call_default.
    unfold bind at 1. now rewrite IH.
  - induction cs as [| c cs IH]; cbn [map]; constructor; [| exact IH].
    destruct c; cbn; auto.
Qed.

End ProtocolFacts.
